(** * dev.py: test-data generators and child-process dispatcher

    A shallow embedding of [src/dev.py].  The script builds an argument
    vector for the plotting executable [./main] from one of six fixed
    generators, launches it and polls until it exits, turning a keyboard
    interrupt into a termination request.

    Integers are [Z], Python strings are [string] (characters are the
    code points below 256), Python lists are [list],
    the dictionary [test_cases] is a [gmap Z _].  Printing, process control
    and the (unused) [random] module live in an explicit [world] that is
    threaded through every statement. *)

From stdpp Require Import base numbers list list_numbers strings pretty
  gmap fin_maps.

Local Open Scope string_scope.
Local Open Scope list_scope.
Local Open Scope Z_scope.

(** ** Characters that have no plain literal *)

(** The double quote, code point 34, and the line feed, code point 10. *)
Definition dquote : string := String (Ascii.ascii_of_nat 34) EmptyString.
Definition newline : string := String (Ascii.ascii_of_nat 10) EmptyString.

(** ** Python built-ins used by the script *)

Module Py.

(** [str(v)] is overloaded on the type of [v]. *)
Class Str (A : Type) := str : A → string.
Global Hint Mode Str ! : typeclass_instances.

(** [str] of an [int]: decimal digits, a leading minus sign if negative. *)
Global Instance int_str : Str Z := λ n, pretty n.

(** [range(start, stop)] with the default step 1. *)
Definition range (start stop : Z) : list Z := seqZ start (stop - start).

(** [len(l)] is an [int]. *)
Definition len {A} (l : list A) : Z := Z.of_nat (length l).

(** [sep.join(ls)] *)
Definition join (sep : string) (ls : list string) : string :=
  String.concat sep ls.

(** [l.extend(it)]: the items of [it] as they are when the call starts
    are appended to [l]; [y.extend(y)] therefore doubles [y]. *)
Definition extend {A} (l it : list A) : list A := l ++ it.

(** [c.isspace()] on the code points a character of [string] can hold:
    TAB..CR (9-13), FS..US (28-31), the blank (32), NEL (133) and the
    no-break space (160). *)
Definition isspace (c : Ascii.ascii) : bool :=
  let n := Ascii.nat_of_ascii c in
  ((9 <=? n)%nat && (n <=? 13)%nat)
  || ((28 <=? n)%nat && (n <=? 31)%nat)
  || (n =? 32)%nat
  || (n =? 133)%nat
  || (n =? 160)%nat.

(** [s.lstrip()], [s.rstrip()] and [s.strip()] without argument. *)
Fixpoint lstrip (s : string) : string :=
  match s with
  | EmptyString => EmptyString
  | String c s' => if isspace c then lstrip s' else s
  end.

Definition rstrip (s : string) : string :=
  String.rev (lstrip (String.rev s)).

Definition strip (s : string) : string := rstrip (lstrip s).

(** [s.split(sep)] for a one-character separator, which is the only way
    the script calls it: every occurrence of [sep] cuts, so adjacent
    separators and the empty string yield empty items. *)
Fixpoint split (sep : Ascii.ascii) (s : string) : list string :=
  match s with
  | EmptyString => [EmptyString]
  | String c s' =>
      if Ascii.eqb c sep then EmptyString :: split sep s'
      else match split sep s' with
           | [] => [String c EmptyString]
           | w :: ws => String c w :: ws
           end
  end.

Definition blank : Ascii.ascii := Ascii.ascii_of_nat 32.
Definition comma : Ascii.ascii := Ascii.ascii_of_nat 44.

End Py.

Import Py.

(** ** The world the script runs in *)

(** What [print] is called with: a piece of text or a list of strings
    (printed by Python as the list's [repr]). *)
Inductive printable :=
  | Text (s : string)
  | ListOf (l : list string).

(** Observable actions of the script, in the order they happen. *)
Inductive effect :=
  | Print (p : printable)            (* print(p) *)
  | Popen (argv : list string)       (* subprocess.Popen(argv) *)
  | Poll                             (* proc.poll() *)
  | Sleep                            (* time.sleep(0.1) *)
  | Terminate.                       (* proc.terminate() *)

(** [random_state] is the hidden state of the imported [random] module;
    [trace] collects the effects performed so far. *)
Record world := World {
  trace : list effect;
  random_state : list Z
}.

(** Statements are state transformers over the world. *)
Definition Stmt (A : Type) : Type := world → A * world.

Global Instance Stmt_ret : MRet Stmt := λ A a w, (a, w).

Global Instance Stmt_bind : MBind Stmt := λ A B k m w,
  let '(a, w') := m w in k a w'.

Definition ret {A} (a : A) : Stmt A := mret a.

Definition emit (e : effect) : Stmt unit :=
  λ w, (tt, World (trace w ++ [e]) (random_state w)).

Definition print (p : printable) : Stmt unit := emit (Print p).

(** ** The generators *)

Definition to_str {A} `{Str A} (x : list A) : string :=
  join ", " (map str x).

(** A generator takes the extra tokens and returns the argument list. *)
Definition generator : Type := list string → Stmt (list string).

Section Generators.

(** Python floats: [truediv a b] is [a / b] on two ints, [sin] is
    [math.sin], and [str] renders a float. *)
Context {float : Type} `{!Str float}.
Variable truediv : Z → Z → float.
Variable sin : float → float.

Definition test1_x : list float := (λ i, truediv i 10) <$> range 0 100.
Definition test1_y : list float := sin <$> test1_x.

Definition test1 : generator := λ aes,
  let x := test1_x in
  let y := test1_y in
  print (Text ("len(x)=" +:+ str (len x) +:+ ", len(y)=" +:+ str (len y)));;
  ret (["-x"; to_str x; "-y"; to_str y] ++ aes).

Definition test2_x : list Z := range 0 5.
Definition test2_y : list Z := let y := range 0 8 in extend y y.

Definition test2 : generator := λ aes,
  let x := test2_x in
  let y := test2_y in
  print (Text (join ", " (map str x)));;
  print (Text (join ", " (map str y)));;
  ret (["-x"; to_str x; "-y"; to_str y] ++ aes).

Definition test3_x : list float := (λ i, truediv i 5) <$> range 0 5.
Definition test3_y : list float := sin <$> test3_x.

Definition test3 : generator := λ aes,
  let x := test3_x in
  let y := test3_y in
  print (Text ("len(x)=" +:+ str (len x) +:+ ", len(y)=" +:+ str (len y)));;
  ret (["-x"; to_str x; "-y"; to_str y] ++ aes).

(** The literal argument groups of scenarios 4, 5 and 6. *)
Definition lines_red_123 : string :=
  "-P -x " +:+ dquote +:+ "1,2,3" +:+ dquote +:+
  " -y " +:+ dquote +:+ "1,4,9" +:+ dquote +:+ " -t lines -c red".
Definition points_blue_123 : string :=
  "-P -x " +:+ dquote +:+ "1,2,3" +:+ dquote +:+
  " -y " +:+ dquote +:+ "2,3,4" +:+ dquote +:+ " -t points -c blue".
Definition file_lines_red : string :=
  "-P --file test.dat -x1 -y2 -t lines -c red".
Definition points_blue_1234 : string :=
  "-P -x " +:+ dquote +:+ "1,2,3,4" +:+ dquote +:+
  " -y " +:+ dquote +:+ "3,6,9,12" +:+ dquote +:+ " -t points -c blue".

Definition test4 : generator := λ aes,
  let args := lines_red_123 +:+ " " +:+ points_blue_123 in
  let args := split blank args in
  print (ListOf args);;
  ret args.

Definition test5 : generator := λ aes,
  let args := file_lines_red +:+ " " +:+ points_blue_1234 in
  let args := split blank args in
  print (ListOf args);;
  ret args.

Definition test6 : generator := λ aes,
  let args := points_blue_1234 +:+ " " +:+ file_lines_red in
  let args := split blank args in
  print (ListOf args);;
  ret args.

Definition test_cases : gmap Z generator :=
  {[ 1 := test1; 2 := test2; 3 := test3;
     4 := test4; 5 := test5; 6 := test6 ]}.

End Generators.

(** ** The dispatcher *)

(** What the surroundings do at each turn of the wait loop. *)
Inductive tick :=
  | StillRunning        (* poll() gives None and the sleep elapses *)
  | Exited (rc : Z)     (* poll() gives the child's return code *)
  | InterruptInPoll     (* KeyboardInterrupt is raised inside poll() *)
  | InterruptInSleep.   (* poll() gives None, KeyboardInterrupt in sleep() *)

(** [launches] tells whether [subprocess.Popen] finds and starts the
    executable; [ticks] scripts the turns of the wait loop. *)
Record environment := Environment {
  launches : bool;
  ticks : list tick
}.

(** How a run of the script ends.  [Waiting] stands for a loop that is
    still polling when the scripted ticks are used up. *)
Inductive outcome :=
  | SystemExit (status : Z)     (* exit(status) *)
  | Completed                   (* the end of the script is reached *)
  | Uncaught (exn : string)     (* an exception nobody handles *)
  | Waiting.

(** How the [while] loop inside the [try] block is left. *)
Inductive loop_exit :=
  | ChildGone
  | KeyboardInterrupt
  | Pending.

Fixpoint wait_loop (ts : list tick) : Stmt loop_exit :=
  match ts with
  | [] => ret Pending
  | StillRunning :: ts' => emit Poll;; emit Sleep;; wait_loop ts'
  | Exited _ :: _ => emit Poll;; ret ChildGone
  | InterruptInPoll :: _ => emit Poll;; ret KeyboardInterrupt
  | InterruptInSleep :: _ => emit Poll;; emit Sleep;; ret KeyboardInterrupt
  end.

(** [k in d] for a dictionary. *)
Definition contains {V} (d : gmap Z V) (k : Z) : bool :=
  bool_decide (is_Some (d !! k)).

Section Dispatcher.

Context {float : Type} `{!Str float}.
Variable truediv : Z → Z → float.
Variable sin : float → float.

Definition main (test : Z) (aes : string) (env : environment)
  : Stmt outcome :=
  if negb (contains (test_cases truediv sin) test) then
    print (Text ("Test " +:+ str test +:+ " not found"));;
    ret (SystemExit 1)
  else
    let aes := split blank (strip aes) in
    match test_cases truediv sin !! test with
    | None => ret (Uncaught "KeyError")
    | Some gen =>
        proc_args ← gen aes;
        print (Text ("Running C program..." +:+ newline));;
        emit (Popen ("./main" :: proc_args));;
        if launches env then
          r ← wait_loop (ticks env);
          match r with
          | ChildGone => ret Completed
          | KeyboardInterrupt =>
              emit Terminate;;
              print (Text "  Program terminated");;
              ret Completed
          | Pending => ret Waiting
          end
        else ret (Uncaught "OSError")
    end.

End Dispatcher.

(** ** A term model of floats

    Quotients and sines are kept as written, which makes every generator
    runnable on concrete inputs. *)
Module Symbolic.

Inductive float :=
  | Quot (a b : Z)
  | Sin (x : float).

Fixpoint render (x : float) : string :=
  match x with
  | Quot a b => str a +:+ "/" +:+ str b
  | Sin x => "sin(" +:+ render x +:+ ")"
  end.

Global Instance float_str : Str float := render.

Definition main := main Quot Sin.

End Symbolic.

(** ** Reading a trace *)

(** The number of termination requests sent to the child. *)
Fixpoint terminations (tr : list effect) : nat :=
  match tr with
  | [] => 0
  | Terminate :: tr' => S (terminations tr')
  | _ :: tr' => terminations tr'
  end.

(** The argument vectors handed to [subprocess.Popen], one per call; a
    call starts a child when the environment lets it launch. *)
Fixpoint launched (tr : list effect) : list (list string) :=
  match tr with
  | [] => []
  | Popen argv :: tr' => argv :: launched tr'
  | _ :: tr' => launched tr'
  end.

Definition interrupts (t : tick) : bool :=
  match t with
  | InterruptInPoll | InterruptInSleep => true
  | StillRunning | Exited _ => false
  end.

(** The world after [prints] have been printed from [w]. *)
Definition printed (prints : list printable) (w : world) : world :=
  World (trace w ++ (Print <$> prints)) (random_state w).

(** The world once a generator has printed [prints] and the child has
    been started on the tokens [toks]. *)
Definition started (prints : list printable) (toks : list string)
    (w : world) : world :=
  World
    (trace w ++ (Print <$> prints)
       ++ [Print (Text ("Running C program..." +:+ newline));
           Popen ("./main" :: toks)])
    (random_state w).

(** A generator that only prints and whose tokens do not depend on the
    world it runs in. *)
Definition prints_only (g : generator) : Prop :=
  ∀ aes, ∃ toks prints, ∀ w, g aes w = (toks, printed prints w).

(** As the specification words it: the extra tokens are the
    whitespace-separated tokens of the string given with [-a]. *)
Definition spec_extra_tokens (aes : string) : list string :=
  String.words aes.

(** The shape of the argument list of the numeric scenarios: the flags
    [-x] and [-y], each followed by a joined sequence, then the extras. *)
Definition xy_shaped (toks : list string) (x y : string)
    (aes : list string) : Prop :=
  toks !! 0%nat = Some "-x" ∧ toks !! 1%nat = Some x
  ∧ toks !! 2%nat = Some "-y" ∧ toks !! 3%nat = Some y
  ∧ length toks = (4 + length aes)%nat.

(** A literal between double quotes. *)
Definition quoted (s : string) : string := dquote +:+ s +:+ dquote.

(** The number of times the character [c] occurs in [s]. *)
Fixpoint occurrences (c : Ascii.ascii) (s : string) : nat :=
  match s with
  | EmptyString => 0
  | String a s' =>
      if Ascii.eqb a c then S (occurrences c s') else occurrences c s'
  end.

(** The first and the last character of a string, if it has any. *)
Definition first_char (s : string) : option Ascii.ascii :=
  match s with
  | EmptyString => None
  | String c _ => Some c
  end.

Fixpoint last_char (s : string) : option Ascii.ascii :=
  match s with
  | EmptyString => None
  | String c EmptyString => Some c
  | String _ s' => last_char s'
  end.

(** The effects of [n] turns of the wait loop that find the child
    running: a poll and a sleep each. *)
Fixpoint polling (n : nat) : list effect :=
  match n with
  | O => []
  | S n' => Poll :: Sleep :: polling n'
  end.

(** The world once the banner is printed and the child is started on
    [toks], from the world [w0] the generator left. *)
Definition launch (toks : list string) (w0 : world) : world :=
  World
    (trace w0 ++ [Print (Text ("Running C program..." +:+ newline));
                  Popen ("./main" :: toks)])
    (random_state w0).

(** * Properties *)

(** ** Built-ins *)

Lemma range_length (a b : Z) : length (range a b) = Z.to_nat (b - a).
Proof. unfold range. apply length_seqZ. Qed.

Lemma range_lookup (a b : Z) (i : nat) :
  a + Z.of_nat i < b → range a b !! i = Some (a + Z.of_nat i).
Proof. intros Hi. unfold range. apply lookup_seqZ_lt. lia. Qed.

Lemma terminations_app (t1 t2 : list effect) :
  terminations (t1 ++ t2) = (terminations t1 + terminations t2)%nat.
Proof.
  induction t1 as [|e t1 IH]; [done|].
  destruct e; simpl; rewrite IH; done.
Qed.

Lemma launched_app (t1 t2 : list effect) :
  launched (t1 ++ t2) = launched t1 ++ launched t2.
Proof.
  induction t1 as [|e t1 IH]; [done|].
  destruct e; simpl; rewrite IH; done.
Qed.

Lemma terminations_prints (ps : list printable) :
  terminations (Print <$> ps) = 0%nat.
Proof. induction ps; done. Qed.

Lemma launched_prints (ps : list printable) : launched (Print <$> ps) = [].
Proof. induction ps; done. Qed.

Lemma printed_app (p q : list printable) (w : world) :
  printed q (printed p w) = printed (p ++ q) w.
Proof. unfold printed. simpl. by rewrite fmap_app, (assoc_L (++)). Qed.

Lemma print_run (p : printable) (w : world) : print p w = (tt, printed [p] w).
Proof. reflexivity. Qed.

Lemma bind_run {A B} (m : Stmt A) (k : A → Stmt B) (w : world) :
  (m ≫= k) w = k (m w).1 (m w).2.
Proof. unfold mbind, Stmt_bind. by destruct (m w). Qed.

Lemma ret_run {A} (a : A) (w : world) : ret a w = (a, w).
Proof. reflexivity. Qed.

(** Runs a straight-line statement whose effects are all prints. *)
Ltac run_prints :=
  repeat first
    [ rewrite bind_run | rewrite print_run | rewrite ret_run
    | progress cbn [fst snd] | rewrite printed_app ].

(** ** The built-ins on small inputs *)

Example split_empty : split blank EmptyString = [EmptyString].
Proof. reflexivity. Qed.

Example split_two_blanks :
  split blank "-t  lines" = ["-t"; EmptyString; "lines"].
Proof. by vm_compute. Qed.

Example strip_blanks : strip "  -c red " = "-c red".
Proof. by vm_compute. Qed.

Example strip_then_split :
  split blank (strip " -t lines -c red ") = ["-t"; "lines"; "-c"; "red"].
Proof. by vm_compute. Qed.

Example strip_no_break_space :
  strip (String (Ascii.ascii_of_nat 160)
           ("-c red" +:+ String (Ascii.ascii_of_nat 133) EmptyString))
  = "-c red".
Proof. by vm_compute. Qed.

Example strip_only_spaces :
  strip (String (Ascii.ascii_of_nat 160) " ") = EmptyString.
Proof. by vm_compute. Qed.

Example str_negative : str (-1) = "-1".
Proof. by vm_compute. Qed.

Example range_0_5 : range 0 5 = [0; 1; 2; 3; 4].
Proof. reflexivity. Qed.

(** ** The generators, one by one *)

Section Scenarios.

Context {float : Type} `{!Str float}.
Variable truediv : Z → Z → float.
Variable sin : float → float.

Lemma test1_run (aes : list string) (w : world) :
  test1 truediv sin aes w =
    (["-x"; to_str (test1_x truediv); "-y"; to_str (test1_y truediv sin)]
       ++ aes,
     printed [Text "len(x)=100, len(y)=100"] w).
Proof. reflexivity. Qed.

Lemma test2_run (aes : list string) (w : world) :
  test2 aes w =
    (["-x"; "0, 1, 2, 3, 4"; "-y";
      "0, 1, 2, 3, 4, 5, 6, 7, 0, 1, 2, 3, 4, 5, 6, 7"] ++ aes,
     printed [Text "0, 1, 2, 3, 4";
              Text "0, 1, 2, 3, 4, 5, 6, 7, 0, 1, 2, 3, 4, 5, 6, 7"] w).
Proof. unfold test2. run_prints. by vm_compute. Qed.

Lemma test3_run (aes : list string) (w : world) :
  test3 truediv sin aes w =
    (["-x"; to_str (test3_x truediv); "-y"; to_str (test3_y truediv sin)]
       ++ aes,
     printed [Text "len(x)=5, len(y)=5"] w).
Proof. by vm_compute. Qed.

Lemma test4_run (aes : list string) (w : world) :
  test4 aes w =
    (split blank lines_red_123 ++ split blank points_blue_123,
     printed
       [ListOf (split blank lines_red_123 ++ split blank points_blue_123)]
       w).
Proof. by vm_compute. Qed.

Lemma test5_run (aes : list string) (w : world) :
  test5 aes w =
    (split blank file_lines_red ++ split blank points_blue_1234,
     printed
       [ListOf (split blank file_lines_red ++ split blank points_blue_1234)]
       w).
Proof. by vm_compute. Qed.

Lemma test6_run (aes : list string) (w : world) :
  test6 aes w =
    (split blank points_blue_1234 ++ split blank file_lines_red,
     printed
       [ListOf (split blank points_blue_1234 ++ split blank file_lines_red)]
       w).
Proof. by vm_compute. Qed.

(** *** The scenario table *)

Lemma test_cases_lookup_Some (t : Z) (g : generator) :
  test_cases truediv sin !! t = Some g →
  t = 1 ∧ g = test1 truediv sin ∨ t = 2 ∧ g = test2
  ∨ t = 3 ∧ g = test3 truediv sin ∨ t = 4 ∧ g = test4
  ∨ t = 5 ∧ g = test5 ∨ t = 6 ∧ g = test6.
Proof.
  unfold test_cases.
  rewrite !lookup_insert_Some, lookup_singleton_Some.
  intros H. repeat destruct H as [[<- <-]|[_ H]]; [tauto..|].
  destruct H as [<- <-]. tauto.
Qed.

Lemma test_cases_lookup_None (t : Z) :
  test_cases truediv sin !! t = None ↔ ¬ (1 ≤ t ≤ 6).
Proof.
  unfold test_cases.
  rewrite !lookup_insert_None, lookup_singleton_None. lia.
Qed.

Lemma test_cases_size : size (test_cases truediv sin) = 6%nat.
Proof.
  unfold test_cases.
  rewrite !map_size_insert_None, map_size_singleton; [done|..];
    rewrite ?lookup_insert_None, lookup_singleton_None; repeat split; lia.
Qed.

Lemma test_cases_prints_only (t : Z) (g : generator) :
  test_cases truediv sin !! t = Some g → prints_only g.
Proof.
  intros Hg aes.
  apply test_cases_lookup_Some in Hg
    as [[_ ->]|[[_ ->]|[[_ ->]|[[_ ->]|[[_ ->]|[_ ->]]]]]];
    eexists _, _; intros w.
  - apply test1_run.
  - apply test2_run.
  - apply test3_run.
  - apply test4_run.
  - apply test5_run.
  - apply test6_run.
Qed.

(** *** Scenarios 1 and 3 *)

(** C4: scenario 1 of the table returns the flags with the renderings of
    two sequences x and y of 100 items each, where x[i] is i/10 and y[i]
    is the sine of x[i] for every i below 100, and reports both lengths. *)
Theorem test1_sequences (aes : list string) (w : world) :
  test_cases truediv sin !! 1 = Some (test1 truediv sin)
  ∧ ∃ x y : list float,
      test1 truediv sin aes w
      = (["-x"; to_str x; "-y"; to_str y] ++ aes,
         printed [Text "len(x)=100, len(y)=100"] w)
      ∧ length x = 100%nat
      ∧ length y = 100%nat
      ∧ ∀ i : nat, (i < 100)%nat →
          ∃ xi, x !! i = Some xi
                ∧ xi = truediv (Z.of_nat i) 10
                ∧ y !! i = Some (sin xi).
Proof.
  split; [done|].
  exists (test1_x truediv), (test1_y truediv sin).
  split_and!; [apply test1_run|by vm_compute..|].
  intros i Hi. exists (truediv (Z.of_nat i) 10).
  unfold test1_y, test1_x.
  rewrite !list_lookup_fmap, range_lookup by lia.
  by rewrite Z.add_0_l.
Qed.

(** C6: scenario 3 of the table returns the flags with the renderings of
    two sequences x and y of 5 items each, where x[i] is i/5 and y[i] is
    the sine of x[i] for every i below 5, and reports both lengths. *)
Theorem test3_sequences (aes : list string) (w : world) :
  test_cases truediv sin !! 3 = Some (test3 truediv sin)
  ∧ ∃ x y : list float,
      test3 truediv sin aes w
      = (["-x"; to_str x; "-y"; to_str y] ++ aes,
         printed [Text "len(x)=5, len(y)=5"] w)
      ∧ length x = 5%nat
      ∧ length y = 5%nat
      ∧ ∀ i : nat, (i < 5)%nat →
          ∃ xi, x !! i = Some xi
                ∧ xi = truediv (Z.of_nat i) 5
                ∧ y !! i = Some (sin xi).
Proof.
  split; [done|].
  exists (test3_x truediv), (test3_y truediv sin).
  split_and!; [apply test3_run|by vm_compute..|].
  intros i Hi. exists (truediv (Z.of_nat i) 5).
  unfold test3_y, test3_x.
  rewrite !list_lookup_fmap, range_lookup by lia.
  by rewrite Z.add_0_l.
Qed.

(** C10: whatever the extra tokens, the lists returned for scenarios 1,
    2 and 3 hold "-x" at position 0, "-y" at position 2, the
    comma-and-blank joined renderings of x and y at positions 1 and 3,
    and have four items more than there are extra tokens. *)
Theorem numeric_generators_shape (aes : list string) (w : world) :
  xy_shaped (test1 truediv sin aes w).1
    (String.concat ", " (str <$> test1_x truediv))
    (String.concat ", " (str <$> test1_y truediv sin)) aes
  ∧ xy_shaped (test2 aes w).1
    (String.concat ", " (str <$> test2_x))
    (String.concat ", " (str <$> test2_y)) aes
  ∧ xy_shaped (test3 truediv sin aes w).1
    (String.concat ", " (str <$> test3_x truediv))
    (String.concat ", " (str <$> test3_y truediv sin)) aes.
Proof.
  unfold xy_shaped.
  rewrite test1_run, test2_run, test3_run. cbn [fst].
  split_and!; by vm_compute.
Qed.

(** *** Scenarios 4, 5 and 6 *)

(** C5: scenario 4 returns the fixed list got by cutting the two
    literals, joined by one blank, at every blank; the extra tokens
    play no part. *)
Theorem test4_fixed_tokens (aes aes' : list string) (w w' : world) :
  (test4 aes w).1 =
    ["-P"; "-x"; quoted "1,2,3"; "-y"; quoted "1,4,9";
     "-t"; "lines"; "-c"; "red";
     "-P"; "-x"; quoted "1,2,3"; "-y"; quoted "2,3,4";
     "-t"; "points"; "-c"; "blue"]
  ∧ (test4 aes w).1
    = split blank (lines_red_123 +:+ " " +:+ points_blue_123)
  ∧ (test4 aes w).1 = (test4 aes' w').1.
Proof. split_and!; by vm_compute. Qed.

(** C8: scenario 5 returns the file-backed group followed by the inline
    group, scenario 6 the same two groups the other way round, and
    neither looks at the extra tokens. *)
Theorem test6_swaps_test5 (aes aes' : list string) (w w' : world) :
  let file_group :=
    ["-P"; "--file"; "test.dat"; "-x1"; "-y2"; "-t"; "lines"; "-c"; "red"]
  in
  let inline_group :=
    ["-P"; "-x"; quoted "1,2,3,4"; "-y"; quoted "3,6,9,12";
     "-t"; "points"; "-c"; "blue"]
  in
  file_group = split blank file_lines_red
  ∧ inline_group = split blank points_blue_1234
  ∧ (test5 aes w).1 = file_group ++ inline_group
  ∧ (test6 aes w).1 = inline_group ++ file_group
  ∧ (test5 aes w).1 = (test5 aes' w').1
  ∧ (test6 aes w).1 = (test6 aes' w').1.
Proof. intros file_group inline_group. split_and!; by vm_compute. Qed.

(** *** Determinism *)

(** C9: two runs of the generator of one scenario on the same extra
    tokens return the same list, whatever the state of the random
    module and whatever happened before. *)
Theorem generators_deterministic (t : Z) (g : generator)
    (aes : list string) (w1 w2 : world) :
  test_cases truediv sin !! t = Some g →
  (g aes w1).1 = (g aes w2).1.
Proof.
  intros Hg.
  destruct (test_cases_prints_only t g Hg aes) as (toks & prints & Hrun).
  by rewrite !Hrun.
Qed.

End Scenarios.

(** ** Scenario 2 *)

Lemma occurrences_app (c : Ascii.ascii) (a b : string) :
  occurrences c (a +:+ b) = (occurrences c a + occurrences c b)%nat.
Proof.
  induction a as [|x a IH]; [done|].
  change (String x a +:+ b) with (String x (a +:+ b)). simpl.
  destruct (Ascii.eqb x c); by rewrite IH.
Qed.

Lemma pretty_N_char_no_comma (x : N) :
  Ascii.eqb (pretty_N_char x) comma = false.
Proof.
  destruct x as [|p]; [done|].
  do 4 (try destruct p as [p|p|]); by vm_compute.
Qed.

Lemma pretty_N_go_commas (x : N) (s : string) :
  occurrences comma (pretty_N_go x s) = occurrences comma s.
Proof.
  revert s. induction (N.lt_wf_0 x) as [x _ IH]; intros s.
  destruct (decide (x = 0)%N) as [->|Hx]; [done|].
  rewrite pretty_N_go_step by lia.
  rewrite IH by (apply N.div_lt; lia).
  simpl. by rewrite pretty_N_char_no_comma.
Qed.

(** The decimal rendering of an integer holds no comma. *)
Lemma str_int_commas (z : Z) : occurrences comma (str z) = 0%nat.
Proof.
  unfold str, int_str, pretty, pretty_Z.
  destruct z as [|p|p]; [done|..];
    unfold pretty, pretty_positive, pretty, pretty_N;
    (destruct (decide _) as [|_]; [done|]);
    [|rewrite occurrences_app]; by rewrite pretty_N_go_commas.
Qed.

(** The rendering of a non-empty sequence of integers has one comma less
    than the sequence has items. *)
Lemma to_str_commas (l : list Z) :
  l ≠ [] → length l = S (occurrences comma (to_str l)).
Proof.
  intros Hl. induction l as [|a l IH]; [done|].
  destruct l as [|b l].
  - change (to_str [a]) with (str a). by rewrite str_int_commas.
  - change (to_str (a :: b :: l))
      with (str a +:+ ", " +:+ to_str (b :: l)).
    rewrite !occurrences_app, str_int_commas.
    specialize (IH ltac:(done)).
    change (occurrences comma ", ") with 1%nat.
    simpl length in *. lia.
Qed.

(** C1, as stated, fails: the list that scenario 2 returns renders two
    sequences of integers, and for no two sequences that it renders is
    the second twice as long as the first. *)
Lemma test2_y_not_twice_x :
  (∃ x y : list Z,
     (test2 [] (World [] [])).1 = ["-x"; to_str x; "-y"; to_str y])
  ∧ ¬ (∃ x y : list Z,
         (test2 [] (World [] [])).1 = ["-x"; to_str x; "-y"; to_str y]
         ∧ length y = (2 * length x)%nat
         ∧ y = take (length y / 2) y ++ take (length y / 2) y).
Proof.
  split; [exists test2_x, test2_y; by vm_compute|].
  intros (x & y & Hrun & Hlen & _).
  rewrite test2_run in Hrun. cbn [fst] in Hrun.
  injection Hrun as Hx Hy.
  assert (x ≠ []) as Hx0 by (intros ->; discriminate Hx).
  assert (y ≠ []) as Hy0 by (intros ->; discriminate Hy).
  rewrite (to_str_commas x Hx0), (to_str_commas y Hy0), <-Hx, <-Hy in Hlen.
  vm_compute in Hlen. discriminate Hlen.
Qed.

(** C1, amended: scenario 2 of the table returns the flags with the
    renderings of a sequence x of 5 items and a sequence y of 16 items,
    twice the 8 that y had before it was extended with itself; y is its
    own first half repeated twice, and both renderings are printed. *)
Theorem test2_y_doubled (aes : list string) (w : world) :
  ∃ x y : list Z,
    test2 aes w
    = (["-x"; to_str x; "-y"; to_str y] ++ aes,
       printed [Text (to_str x); Text (to_str y)] w)
    ∧ x = [0; 1; 2; 3; 4]
    ∧ length x = 5%nat
    ∧ length y = (2 * length (range 0 8))%nat
    ∧ length y = 16%nat
    ∧ y = take (length y / 2) y ++ take (length y / 2) y
    ∧ take (length y / 2) y = range 0 8.
Proof.
  exists test2_x, test2_y. split; [|by repeat split].
  rewrite test2_run. by vm_compute.
Qed.

(** ** The wait loop *)

Lemma emit_run (e : effect) (w : world) :
  emit e w = (tt, World (trace w ++ [e]) (random_state w)).
Proof. reflexivity. Qed.

(** The loop only polls and sleeps. *)
Lemma wait_loop_effects (ts : list tick) (w : world) :
  ∃ ps, (wait_loop ts w).2 = World (trace w ++ ps) (random_state w)
        ∧ terminations ps = 0%nat ∧ launched ps = [].
Proof.
  revert w. induction ts as [|k ts IH]; intros w.
  - exists []. by rewrite (right_id_L [] (++)); destruct w.
  - destruct k; simpl wait_loop; rewrite ?bind_run, ?emit_run, ?ret_run;
      cbn [fst snd trace random_state].
    + destruct (IH (World ((trace w ++ [Poll]) ++ [Sleep]) (random_state w)))
        as (ps & -> & Ht & Hl).
      exists ([Poll; Sleep] ++ ps). cbn [trace random_state].
      split_and!; [|by rewrite terminations_app, Ht
                   |by rewrite launched_app, Hl].
      by rewrite <-!(assoc_L (++)).
    + by exists [Poll].
    + by exists [Poll].
    + exists [Poll; Sleep]. by rewrite <-!(assoc_L (++)).
Qed.

(** How the loop is left depends on the ticks alone. *)
Lemma wait_loop_exit_world (ts : list tick) (w w' : world) :
  (wait_loop ts w).1 = (wait_loop ts w').1.
Proof.
  revert w w'. induction ts as [|k ts IH]; intros w w'; [done|].
  destruct k; simpl wait_loop; rewrite ?bind_run, ?emit_run, ?ret_run;
    cbn [fst snd]; [apply IH|done..].
Qed.

Lemma wait_loop_interrupted (pre post : list tick) (i : tick) (w : world) :
  Forall (λ k, k = StillRunning) pre → interrupts i = true →
  (wait_loop (pre ++ i :: post) w).1 = KeyboardInterrupt.
Proof.
  intros Hpre Hi. revert w.
  induction Hpre as [|k pre -> _ IH]; intros w.
  - destruct i; try discriminate; done.
  - simpl wait_loop. rewrite !bind_run. apply IH.
Qed.

Lemma wait_loop_not_interrupted (ts : list tick) (w : world) :
  Forall (λ k, interrupts k = false) ts →
  (wait_loop ts w).1 ≠ KeyboardInterrupt.
Proof.
  intros Hts. revert w.
  induction Hts as [|k ts Hk _ IH]; intros w; [done|].
  destruct k; try discriminate Hk; simpl wait_loop; rewrite !bind_run;
    [apply IH|done].
Qed.

(** ** The dispatcher *)

Section Dispatch.

Context {float : Type} `{!Str float}.
Variable truediv : Z → Z → float.
Variable sin : float → float.

Lemma main_unknown (t : Z) (aes : string) (env : environment) (w : world) :
  test_cases truediv sin !! t = None →
  main truediv sin t aes env w =
    (SystemExit 1, printed [Text ("Test " +:+ str t +:+ " not found")] w).
Proof.
  intros Ht. unfold main, contains. rewrite Ht.
  rewrite bool_decide_eq_false_2 by (by intros [? ?]).
  cbn [negb]. by rewrite bind_run, print_run, ret_run.
Qed.

Lemma main_known (t : Z) (g : generator) (aes : string)
    (env : environment) (w : world)
    (toks : list string) (prints : list printable) :
  test_cases truediv sin !! t = Some g →
  (∀ w', g (split blank (strip aes)) w' = (toks, printed prints w')) →
  main truediv sin t aes env w =
    let w1 := started prints toks w in
    if launches env then
      let w2 := (wait_loop (ticks env) w1).2 in
      match (wait_loop (ticks env) w1).1 with
      | ChildGone => (Completed, w2)
      | KeyboardInterrupt =>
          (Completed,
           World (trace w2 ++ [Terminate;
                               Print (Text "  Program terminated")])
                 (random_state w2))
      | Pending => (Waiting, w2)
      end
    else (Uncaught "OSError", w1).
Proof.
  intros Ht Hg. unfold main, contains, generator in *. rewrite Ht.
  rewrite bool_decide_eq_true_2 by eauto.
  cbn [negb]. rewrite bind_run, Hg. cbn [fst snd].
  rewrite bind_run, print_run. cbn [fst snd].
  rewrite bind_run, emit_run. cbn [fst snd].
  replace (World _ _) with (started prints toks w)
    by (unfold started, printed; cbn [trace random_state];
        by rewrite <-!(assoc_L (++))).
  cbn zeta. destruct (launches env); [|done].
  rewrite bind_run.
  destruct (wait_loop (ticks env) (started prints toks w)) as [[] w2];
    cbn [fst snd]; [done| |done].
  rewrite bind_run, emit_run. cbn [fst snd].
  rewrite bind_run, print_run. cbn [fst snd].
  rewrite ret_run. unfold printed. cbn [trace random_state fmap list_fmap].
  by rewrite <-!(assoc_L (++)).
Qed.

Lemma started_launched (prints : list printable) (toks : list string)
    (w : world) :
  launched (trace (started prints toks w))
  = launched (trace w) ++ ["./main" :: toks].
Proof.
  unfold started. cbn [trace].
  by rewrite !launched_app, launched_prints.
Qed.

Lemma started_terminations (prints : list printable)
    (toks : list string) (w : world) :
  terminations (trace (started prints toks w)) = terminations (trace w).
Proof.
  unfold started. cbn [trace].
  rewrite !terminations_app, terminations_prints. simpl. lia.
Qed.

(** A known scenario starts exactly one child, on the generator's
    tokens. *)
Lemma main_launched (t : Z) (g : generator) (aes : string)
    (env : environment) (w : world)
    (toks : list string) (prints : list printable) :
  test_cases truediv sin !! t = Some g →
  (∀ w', g (split blank (strip aes)) w' = (toks, printed prints w')) →
  launched (trace (main truediv sin t aes env w).2)
  = launched (trace w) ++ ["./main" :: toks].
Proof.
  intros Ht Hg. rewrite (main_known t g aes env w toks prints Ht Hg).
  cbn zeta. destruct (launches env); [|apply started_launched].
  destruct (wait_loop_effects (ticks env) (started prints toks w))
    as (ps & Hps & _ & Hl).
  destruct (wait_loop _ _).1; cbn [snd]; rewrite Hps; cbn [trace];
    rewrite ?launched_app, Hl, started_launched; simpl;
    by rewrite ?(right_id_L [] (++)).
Qed.

(** The child gets the generator's tokens followed by the pieces of the
    stripped [-a] string cut at every blank. *)
Lemma test2_argv (aes : string) (env : environment) (w : world) :
  launched (trace (main truediv sin 2 aes env w).2)
  = launched (trace w)
    ++ [["./main"; "-x"; to_str test2_x; "-y"; to_str test2_y]
          ++ split blank (strip aes)].
Proof.
  erewrite (main_launched 2 test2); [|done|intros w'; apply test2_run].
  do 2 f_equal.
Qed.

(** C2, on the default: with scenario 2 and no [-a] option the child is
    started on five tokens, the four of the generator and one empty
    string, where the whitespace-separated tokens of the empty string
    are none. *)
Theorem default_aes_adds_empty_token (env : environment) (w : world) :
  launched (trace (main truediv sin 2 EmptyString env w).2)
  = launched (trace w)
    ++ [["./main"; "-x"; "0, 1, 2, 3, 4"; "-y";
         "0, 1, 2, 3, 4, 5, 6, 7, 0, 1, 2, 3, 4, 5, 6, 7"; EmptyString]]
  ∧ split blank (strip EmptyString) = [EmptyString]
  ∧ spec_extra_tokens EmptyString = [].
Proof.
  split; [|done].
  by erewrite (main_launched 2 test2);
    [|done|intros w'; apply test2_run].
Qed.

(** C3: an identifier [t] outside the table makes the script print the
    failure and exit with status 1 without starting a child; an
    identifier [u] of the table never ends in that exit. *)
Theorem unknown_scenario_exits (t u : Z) (aes : string)
    (env : environment) (w : world) :
  test_cases truediv sin !! t = None →
  is_Some (test_cases truediv sin !! u) →
  main truediv sin t aes env w
  = (SystemExit 1,
     printed [Text ("Test " +:+ str t +:+ " not found")] w)
  ∧ launched (trace (main truediv sin t aes env w).2)
    = launched (trace w)
  ∧ ∀ status, (main truediv sin u aes env w).1 ≠ SystemExit status.
Proof.
  intros Ht [g Hu]. rewrite (main_unknown t aes env w Ht).
  split_and!; [done| |].
  - unfold printed. cbn [snd trace].
    by rewrite launched_app, launched_prints, (right_id_L [] (++)).
  - intros status.
    destruct (test_cases_prints_only truediv sin u g Hu
                (split blank (strip aes))) as (toks & prints & Hg).
    rewrite (main_known u g aes env w toks prints Hu Hg). cbn zeta.
    destruct (launches env); [|done].
    by destruct (wait_loop _ _).1.
Qed.

(** C7: for a known scenario whose child has started, an interrupt that
    arrives while every poll so far found the child running makes the
    script send one termination request, print that it did, and reach
    its end; a run whose ticks [quiet] hold no interrupt sends none. *)
Theorem interrupt_terminates_once (t : Z) (aes : string)
    (pre post quiet : list tick) (i : tick) (launch : bool) (w : world) :
  is_Some (test_cases truediv sin !! t) →
  Forall (λ k, k = StillRunning) pre →
  interrupts i = true →
  Forall (λ k, interrupts k = false) quiet →
  let r := main truediv sin t aes (Environment true (pre ++ i :: post)) w in
  let q := main truediv sin t aes (Environment launch quiet) w in
  r.1 = Completed
  ∧ terminations (trace r.2) = S (terminations (trace w))
  ∧ (∃ tr, trace r.2
           = tr ++ [Terminate; Print (Text "  Program terminated")])
  ∧ terminations (trace q.2) = terminations (trace w).
Proof.
  intros [g Ht] Hpre Hi Hquiet r q. subst r q.
  destruct (test_cases_prints_only truediv sin t g Ht
              (split blank (strip aes))) as (toks & prints & Hg).
  rewrite !(main_known t g aes _ w toks prints Ht Hg).
  cbn [launches ticks]. cbn zeta.
  rewrite (wait_loop_interrupted pre post i _ Hpre Hi).
  destruct (wait_loop_effects (pre ++ i :: post) (started prints toks w))
    as (ps & Hps & Hps0 & _).
  rewrite Hps. cbn [fst snd trace].
  split_and!; [done| |by eexists|].
  - rewrite !terminations_app, Hps0, started_terminations. simpl. lia.
  - destruct launch; [|apply started_terminations].
    pose proof (wait_loop_not_interrupted quiet (started prints toks w)
                  Hquiet) as Hno.
    destruct (wait_loop_effects quiet (started prints toks w))
      as (qs & Hqs & Hqs0 & _).
    destruct (wait_loop quiet _).1; [|done|]; cbn [snd]; rewrite Hqs;
      cbn [trace];
      rewrite terminations_app, Hqs0, started_terminations; lia.
Qed.

End Dispatch.

(** * Further properties of the script *)

(** ** Cutting and joining strings *)

Lemma string_app_assoc (a b c : string) : (a +:+ b) +:+ c = a +:+ b +:+ c.
Proof.
  induction a as [|x a IH]; [done|].
  change (String x ((a +:+ b) +:+ c) = String x (a +:+ b +:+ c)).
  by rewrite IH.
Qed.

Lemma split_not_nil (sep : Ascii.ascii) (s : string) : split sep s ≠ [].
Proof.
  destruct s as [|c s]; [done|]. simpl.
  destruct (Ascii.eqb c sep); [done|]. by destruct (split sep s).
Qed.

Lemma concat_cons (sep x : string) (xs : list string) :
  xs ≠ [] → String.concat sep (x :: xs) = x +:+ sep +:+ String.concat sep xs.
Proof. by destruct xs. Qed.

Lemma concat_app (sep : string) (l1 l2 : list string) :
  l1 ≠ [] → l2 ≠ [] →
  String.concat sep (l1 ++ l2)
  = String.concat sep l1 +:+ sep +:+ String.concat sep l2.
Proof.
  intros H1 H2. induction l1 as [|x l1 IH]; [done|].
  destruct l1 as [|y l1].
  - simpl app. by rewrite concat_cons.
  - rewrite <-app_comm_cons, concat_cons by done.
    rewrite IH by done. rewrite (concat_cons sep x) by done.
    by rewrite !string_app_assoc.
Qed.

(** X1: [to_str] of two non-empty lists put end to end is the two
    renderings with one comma and blank between them. *)
Theorem to_str_app {A} `{!Str A} (x y : list A) :
  x ≠ [] → y ≠ [] →
  to_str (x ++ y) = to_str x +:+ ", " +:+ to_str y.
Proof.
  intros Hx Hy. unfold to_str, join. rewrite map_app.
  apply concat_app; by destruct x, y.
Qed.

(** X2: joining the pieces of [s.split(sep)] with [sep] gives [s] back. *)
Theorem join_split (sep : Ascii.ascii) (s : string) :
  join (String sep EmptyString) (split sep s) = s.
Proof.
  unfold join. induction s as [|c s IH]; [done|]. simpl split.
  destruct (Ascii.eqb c sep) eqn:Hc.
  - apply Ascii.eqb_eq in Hc as ->.
    rewrite concat_cons by apply split_not_nil. simpl. by rewrite IH.
  - pose proof (split_not_nil sep s) as Hne.
    destruct (split sep s) as [|w ws]; [done|].
    destruct ws as [|w' ws]; simpl in *; by rewrite <-IH.
Qed.

(** X3: [s.split(sep)] has one piece more than [s] has separators; in
    particular it is never empty. *)
Theorem split_length (sep : Ascii.ascii) (s : string) :
  length (split sep s) = S (occurrences sep s).
Proof.
  induction s as [|c s IH]; [done|]. simpl.
  destruct (Ascii.eqb c sep); simpl; [by rewrite IH|].
  pose proof (split_not_nil sep s) as Hne.
  by destruct (split sep s).
Qed.

(** X4: no piece of [s.split(sep)] contains the separator. *)
Theorem split_pieces_free (sep : Ascii.ascii) (s : string) :
  Forall (λ piece, occurrences sep piece = 0%nat) (split sep s).
Proof.
  induction s as [|c s IH]; [by repeat constructor|]. simpl.
  destruct (Ascii.eqb c sep) eqn:Hc; [by constructor|].
  destruct (split sep s) as [|w ws].
  - repeat constructor. simpl. by rewrite Hc.
  - inversion_clear IH as [|? ? Hw Hws]. constructor; [|done].
    simpl. by rewrite Hc.
Qed.

(** ** Stripping *)

Lemma lstrip_first_char (s : string) (c : Ascii.ascii) :
  first_char (lstrip s) = Some c → isspace c = false.
Proof.
  induction s as [|a s IH]; [done|]. simpl.
  destruct (isspace a) eqn:Ha; [done|]. simpl. by intros [= <-].
Qed.

Lemma last_char_cons (a : Ascii.ascii) (s : string) :
  last_char (String a s) = Some (default a (last_char s)).
Proof.
  revert a. induction s as [|b s IH]; intros a; [done|].
  change (last_char (String a (String b s))) with (last_char (String b s)).
  by rewrite IH.
Qed.

Lemma last_char_rev_app (s1 s2 : string) :
  last_char (String.rev_app s1 s2)
  = match s2 with
    | EmptyString => first_char s1
    | String _ _ => last_char s2
    end.
Proof.
  revert s2. induction s1 as [|a s1 IH]; intros s2; [by destruct s2|].
  simpl String.rev_app. rewrite IH. by destruct s2.
Qed.

Lemma first_char_rev_app (s1 s2 : string) :
  first_char (String.rev_app s1 s2)
  = match last_char s1 with
    | Some c => Some c
    | None => first_char s2
    end.
Proof.
  revert s2. induction s1 as [|a s1 IH]; intros s2; [done|].
  simpl String.rev_app. rewrite IH, last_char_cons.
  by destruct (last_char s1).
Qed.

(** Stripping on the left keeps a last character that is no space. *)
Lemma lstrip_last_char (s : string) (c : Ascii.ascii) :
  last_char s = Some c → isspace c = false → last_char (lstrip s) = Some c.
Proof.
  intros Hlast Hc. induction s as [|a s IH]; [done|]. simpl lstrip.
  destruct (isspace a) eqn:Ha; [|done].
  destruct s as [|b s]; [simpl in Hlast; congruence|].
  apply IH. exact Hlast.
Qed.

Lemma strip_last_char (s : string) (c : Ascii.ascii) :
  last_char (strip s) = Some c → isspace c = false.
Proof.
  unfold strip, rstrip, String.rev. rewrite last_char_rev_app.
  apply lstrip_first_char.
Qed.

Lemma strip_first_char (s : string) (c : Ascii.ascii) :
  first_char (strip s) = Some c → isspace c = false.
Proof.
  unfold strip, rstrip, String.rev at 1. rewrite first_char_rev_app.
  destruct (lstrip s) as [|c0 t] eqn:Ht; [done|].
  assert (isspace c0 = false) as Hc0
    by (apply (lstrip_first_char s); by rewrite Ht).
  rewrite (lstrip_last_char _ c0); [by intros [= <-]| |done].
  unfold String.rev. by rewrite last_char_rev_app.
Qed.

(** X5: a stripped string neither starts nor ends with a whitespace
    character. *)
Theorem strip_ends (s : string) (c : Ascii.ascii) :
  first_char (strip s) = Some c ∨ last_char (strip s) = Some c →
  isspace c = false.
Proof.
  intros [H|H]; [by apply (strip_first_char s)|by apply (strip_last_char s)].
Qed.

Lemma split_head (sep c : Ascii.ascii) (s : string) :
  first_char s = Some c → c ≠ sep →
  ∃ w ws, split sep s = String c w :: ws.
Proof.
  destruct s as [|a s]; [done|]. intros [= ->] Hc. simpl.
  destruct (Ascii.eqb c sep) eqn:E; [by apply Ascii.eqb_eq in E|].
  destruct (split sep s); eauto.
Qed.

Lemma split_last (sep c : Ascii.ascii) (s : string) :
  last_char s = Some c → c ≠ sep → last (split sep s) ≠ Some EmptyString.
Proof.
  intros Hlast Hc. induction s as [|a s IH]; [done|].
  destruct s as [|b s].
  - simpl in *. injection Hlast as ->.
    destruct (Ascii.eqb c sep) eqn:E; [by apply Ascii.eqb_eq in E|done].
  - specialize (IH Hlast).
    pose proof (split_not_nil sep (String b s)) as Hne.
    change (split sep (String a (String b s)))
      with (if Ascii.eqb a sep
            then EmptyString :: split sep (String b s)
            else match split sep (String b s) with
                 | [] => [String a EmptyString]
                 | w :: ws => String a w :: ws
                 end).
    destruct (split sep (String b s)) as [|w [|w' ws]]; [done|..];
      destruct (Ascii.eqb a sep); simpl in *; congruence.
Qed.

(** X6: when the [-a] string holds a character that is no whitespace,
    the first and the last of the extra tokens handed to the generator
    are not empty. *)
Theorem extra_tokens_ends (aes : string) :
  strip aes ≠ EmptyString →
  head (split blank (strip aes)) ≠ Some EmptyString
  ∧ last (split blank (strip aes)) ≠ Some EmptyString.
Proof.
  intros Hne. split.
  - destruct (strip aes) as [|c t] eqn:Hs; [done|].
    destruct (split_head blank c (String c t)) as (w & ws & ->); [done| |done].
    intros ->. by pose proof (strip_first_char aes blank ltac:(by rewrite Hs)).
  - destruct (last_char (strip aes)) as [c|] eqn:Hl.
    + apply (split_last blank c); [done|].
      intros ->. by pose proof (strip_last_char aes blank Hl).
    + destruct (strip aes) as [|c t]; [done|].
      by rewrite last_char_cons in Hl.
Qed.

(** ** Turns of the wait loop *)

Lemma wait_loop_polling (n : nat) (rest : list tick) (w : world) :
  wait_loop (replicate n StillRunning ++ rest) w
  = wait_loop rest (World (trace w ++ polling n) (random_state w)).
Proof.
  revert w. induction n as [|n IH]; intros w.
  - simpl. rewrite (right_id_L [] (++)). by destruct w.
  - simpl replicate. simpl app. simpl wait_loop.
    rewrite !bind_run, !emit_run. cbn [fst snd trace random_state].
    rewrite IH. cbn [trace random_state polling].
    by rewrite <-!(assoc_L (++)).
Qed.

Lemma started_launch (prints : list printable) (toks : list string)
    (w : world) :
  started prints toks w = launch toks (printed prints w).
Proof.
  unfold started, launch, printed. cbn [trace random_state].
  by rewrite <-!(assoc_L (++)).
Qed.

(** ** The whole run *)

Section Runs.

Context {float : Type} `{!Str float}.
Variable truediv : Z → Z → float.
Variable sin : float → float.

(** X7: [k in test_cases] holds for the identifiers 1 to 6 and for no
    other integer. *)
Theorem contains_test_cases (t : Z) :
  contains (test_cases truediv sin) t = bool_decide (1 ≤ t ≤ 6).
Proof.
  unfold contains. apply bool_decide_ext.
  rewrite <-not_eq_None_Some, test_cases_lookup_None. lia.
Qed.

(** X8: the lists returned for scenarios 1, 2 and 3 end with the extra
    tokens, unchanged and in order, and their first four items do not
    depend on the extra tokens. *)
Theorem numeric_generators_append_aes (aes aes' : list string)
    (w w' : world) :
  (drop 4 (test1 truediv sin aes w).1 = aes
   ∧ take 4 (test1 truediv sin aes w).1
     = take 4 (test1 truediv sin aes' w').1)
  ∧ (drop 4 (test2 aes w).1 = aes
     ∧ take 4 (test2 aes w).1 = take 4 (test2 aes' w').1)
  ∧ (drop 4 (test3 truediv sin aes w).1 = aes
     ∧ take 4 (test3 truediv sin aes w).1
       = take 4 (test3 truediv sin aes' w').1).
Proof. rewrite !test1_run, !test2_run, !test3_run. by split_and!. Qed.

(** X9: when the executable can be started, a known scenario starts one
    child and no more; its argument vector is [./main] followed by what
    the generator returns on the stripped [-a] string cut at every
    blank. *)
Theorem known_scenario_starts_one_child (t : Z) (g : generator)
    (aes : string) (env : environment) (w : world) :
  test_cases truediv sin !! t = Some g →
  launches env = true →
  launched (trace (main truediv sin t aes env w).2)
  = launched (trace w)
    ++ ["./main" :: (g (split blank (strip aes)) w).1].
Proof.
  intros Ht _.
  destruct (test_cases_prints_only truediv sin t g Ht
              (split blank (strip aes))) as (toks & prints & Hg).
  rewrite (main_launched truediv sin t g aes env w toks prints Ht Hg).
  by rewrite Hg.
Qed.

(** X10: in scenarios 1, 2 and 3 the child gets [./main], four tokens
    that depend on the scenario alone, and then the pieces of the
    stripped [-a] string cut at every blank. *)
Theorem numeric_scenarios_append_pieces (t : Z) :
  1 ≤ t ≤ 3 →
  ∃ base, length base = 4%nat ∧
    ∀ (aes : string) (env : environment) (w : world),
      launched (trace (main truediv sin t aes env w).2)
      = launched (trace w)
        ++ [("./main" :: base) ++ split blank (strip aes)].
Proof.
  intros Ht. assert (t = 1 ∨ t = 2 ∨ t = 3) as [->|[->| ->]] by lia.
  - exists ["-x"; to_str (test1_x truediv); "-y";
            to_str (test1_y truediv sin)].
    split; [done|]. intros aes env w.
    by erewrite (main_launched truediv sin 1 (test1 truediv sin));
      [|done|intros w'; apply test1_run].
  - exists ["-x"; to_str test2_x; "-y"; to_str test2_y].
    split; [done|]. intros aes env w.
    erewrite (main_launched truediv sin 2 test2);
      [|done|intros w'; apply test2_run].
    do 2 f_equal.
  - exists ["-x"; to_str (test3_x truediv); "-y";
            to_str (test3_y truediv sin)].
    split; [done|]. intros aes env w.
    by erewrite (main_launched truediv sin 3 (test3 truediv sin));
      [|done|intros w'; apply test3_run].
Qed.

(** X11: in scenarios 4, 5 and 6 the [-a] option changes nothing: two
    runs that differ in it alone end alike and leave the same trace. *)
Theorem literal_scenarios_ignore_aes (t : Z) (aes aes' : string)
    (env : environment) (w : world) :
  4 ≤ t ≤ 6 →
  main truediv sin t aes env w = main truediv sin t aes' env w.
Proof.
  intros Ht. assert (t = 4 ∨ t = 5 ∨ t = 6) as [->|[->| ->]] by lia.
  - by rewrite !(main_known truediv sin 4 test4 _ env w _ _ eq_refl
                   (λ w', test4_run _ w')).
  - by rewrite !(main_known truediv sin 5 test5 _ env w _ _ eq_refl
                   (λ w', test5_run _ w')).
  - by rewrite !(main_known truediv sin 6 test6 _ env w _ _ eq_refl
                   (λ w', test6_run _ w')).
Qed.

(** X12: when the child is found running [n] times and then gone, the
    script reaches its end after [n] polls with a sleep each and one last
    poll; the return code and the later ticks play no part, and no
    termination request is sent. *)
Theorem child_exit_ends_run (t : Z) (g : generator) (aes : string)
    (n : nat) (rc : Z) (post : list tick) (w : world) :
  test_cases truediv sin !! t = Some g →
  main truediv sin t aes
    (Environment true (replicate n StillRunning ++ Exited rc :: post)) w
  = let '(toks, w0) := g (split blank (strip aes)) w in
    (Completed,
     World (trace (launch toks w0) ++ polling n ++ [Poll])
           (random_state w0)).
Proof.
  intros Ht.
  destruct (test_cases_prints_only truediv sin t g Ht
              (split blank (strip aes))) as (toks & prints & Hg).
  rewrite (main_known truediv sin t g aes _ w toks prints Ht Hg), Hg.
  cbn [launches ticks]. cbn zeta.
  rewrite wait_loop_polling, started_launch. simpl wait_loop.
  rewrite bind_run, emit_run, ret_run.
  cbn [fst snd trace random_state launch printed].
  by rewrite <-!(assoc_L (++)).
Qed.

(** X13: the wait has no time limit: after any number [n] of polls that
    find the child running the script is still waiting, having polled and
    slept [n] times and sent no termination request. *)
Theorem wait_is_unbounded (t : Z) (g : generator) (aes : string)
    (n : nat) (w : world) :
  test_cases truediv sin !! t = Some g →
  main truediv sin t aes (Environment true (replicate n StillRunning)) w
  = let '(toks, w0) := g (split blank (strip aes)) w in
    (Waiting,
     World (trace (launch toks w0) ++ polling n) (random_state w0)).
Proof.
  intros Ht.
  destruct (test_cases_prints_only truediv sin t g Ht
              (split blank (strip aes))) as (toks & prints & Hg).
  rewrite (main_known truediv sin t g aes _ w toks prints Ht Hg), Hg.
  cbn [launches ticks]. cbn zeta.
  rewrite <-(right_id_L [] (++) (replicate n StillRunning)).
  rewrite wait_loop_polling, started_launch. simpl wait_loop.
  by rewrite ret_run.
Qed.

(** X14: when the executable cannot be started the exception of [Popen]
    is not handled: the run ends there, without a poll, a sleep or a
    termination request, whatever the ticks. *)
Theorem launch_failure_is_uncaught (t : Z) (g : generator) (aes : string)
    (ts : list tick) (w : world) :
  test_cases truediv sin !! t = Some g →
  main truediv sin t aes (Environment false ts) w
  = let '(toks, w0) := g (split blank (strip aes)) w in
    (Uncaught "OSError", launch toks w0).
Proof.
  intros Ht.
  destruct (test_cases_prints_only truediv sin t g Ht
              (split blank (strip aes))) as (toks & prints & Hg).
  rewrite (main_known truediv sin t g aes _ w toks prints Ht Hg), Hg.
  cbn [launches]. cbn zeta. by rewrite started_launch.
Qed.

(** X15: an interrupt after [n] polls that found the child running
    ends the polling: the script sends the termination request, prints
    its report and reaches its end without polling the child again,
    whatever the later ticks. *)
Theorem interrupt_ends_polling (t : Z) (g : generator) (aes : string)
    (n : nat) (i : tick) (post : list tick) (w : world) :
  test_cases truediv sin !! t = Some g →
  interrupts i = true →
  main truediv sin t aes
    (Environment true (replicate n StillRunning ++ i :: post)) w
  = let '(toks, w0) := g (split blank (strip aes)) w in
    (Completed,
     World
       (trace (launch toks w0) ++ polling n
          ++ Poll :: match i with
                     | InterruptInSleep => [Sleep]
                     | _ => []
                     end
          ++ [Terminate; Print (Text "  Program terminated")])
       (random_state w0)).
Proof.
  intros Ht Hi.
  destruct (test_cases_prints_only truediv sin t g Ht
              (split blank (strip aes))) as (toks & prints & Hg).
  rewrite (main_known truediv sin t g aes _ w toks prints Ht Hg), Hg.
  cbn [launches ticks]. cbn zeta.
  rewrite wait_loop_polling, started_launch.
  destruct i; try discriminate Hi; simpl wait_loop;
    rewrite ?bind_run, ?emit_run, ?ret_run;
    cbn [fst snd trace random_state launch printed];
    by rewrite <-!(assoc_L (++)).
Qed.

End Runs.

(** * The claims on concrete runs

    The term model of floats instantiates every statement above. *)

Import Symbolic.

Example run_unknown_0 (env : environment) :
  Symbolic.main 0 "-c red" env (World [] [])
  = (SystemExit 1, World [Print (Text "Test 0 not found")] []).
Proof. by vm_compute. Qed.

Example run_unknown_minus_1 (env : environment) :
  Symbolic.main (-1) EmptyString env (World [] [])
  = (SystemExit 1, World [Print (Text "Test -1 not found")] []).
Proof. by vm_compute. Qed.

Example run_scenario_3 :
  Symbolic.main 3 " -c red "
    (Environment true [StillRunning; InterruptInSleep; StillRunning])
    (World [] [])
  = (Completed,
     World
       [Print (Text "len(x)=5, len(y)=5");
        Print (Text ("Running C program..." +:+ newline));
        Popen ["./main"; "-x"; "0/5, 1/5, 2/5, 3/5, 4/5"; "-y";
               "sin(0/5), sin(1/5), sin(2/5), sin(3/5), sin(4/5)";
               "-c"; "red"];
        Poll; Sleep; Poll; Sleep; Terminate;
        Print (Text "  Program terminated")]
       []).
Proof. by vm_compute. Qed.

(** C4 at index 3. *)
Lemma test1_sequences_witness :
  (3 < 100)%nat
  ∧ ∃ x y : list float,
      test1 Quot Sin ["-c"; "red"] (World [] [])
      = (["-x"; to_str x; "-y"; to_str y] ++ ["-c"; "red"],
         printed [Text "len(x)=100, len(y)=100"] (World [] []))
      ∧ ∃ xi, x !! 3%nat = Some xi
              ∧ xi = Quot 3 10
              ∧ y !! 3%nat = Some (Sin xi).
Proof.
  split; [lia|].
  destruct (proj2 (test1_sequences Quot Sin ["-c"; "red"] (World [] [])))
    as (x & y & Hrun & _ & _ & Hi).
  exists x, y. split; [exact Hrun|]. apply (Hi 3%nat). lia.
Defined.

(** C6 at index 4. *)
Lemma test3_sequences_witness :
  (4 < 5)%nat
  ∧ ∃ x y : list float,
      test3 Quot Sin [] (World [] [])
      = (["-x"; to_str x; "-y"; to_str y] ++ [],
         printed [Text "len(x)=5, len(y)=5"] (World [] []))
      ∧ ∃ xi, x !! 4%nat = Some xi
              ∧ xi = Quot 4 5
              ∧ y !! 4%nat = Some (Sin xi).
Proof.
  split; [lia|].
  destruct (proj2 (test3_sequences Quot Sin [] (World [] [])))
    as (x & y & Hrun & _ & _ & Hi).
  exists x, y. split; [exact Hrun|]. apply (Hi 4%nat). lia.
Defined.

(** C9 on scenario 1, from two worlds that differ in both fields. *)
Lemma generators_deterministic_witness :
  test_cases Quot Sin !! 1 = Some (test1 Quot Sin)
  ∧ (test1 Quot Sin ["-c"; "red"] (World [] [1; 2])).1
    = (test1 Quot Sin ["-c"; "red"] (World [Sleep] [7])).1.
Proof.
  split; [vm_compute; reflexivity|].
  apply (generators_deterministic Quot Sin 1).
  vm_compute; reflexivity.
Defined.

(** C3 on the unknown identifier 7 and the known identifier 1. *)
Lemma unknown_scenario_exits_witness :
  test_cases Quot Sin !! 7 = None
  ∧ is_Some (test_cases Quot Sin !! 1)
  ∧ Symbolic.main 7 "-c red" (Environment true [Exited 0]) (World [] [])
    = (SystemExit 1,
       printed [Text ("Test " +:+ str 7 +:+ " not found")] (World [] []))
  ∧ launched (trace (Symbolic.main 7 "-c red"
                       (Environment true [Exited 0]) (World [] [])).2)
    = launched (trace (World [] []))
  ∧ ∀ status,
      (Symbolic.main 1 "-c red" (Environment true [Exited 0])
         (World [] [])).1 ≠ SystemExit status.
Proof.
  assert (Hin : is_Some (test_cases Quot Sin !! 1))
    by (eexists; vm_compute; reflexivity).
  split; [vm_compute; reflexivity|]. split; [exact Hin|].
  apply (unknown_scenario_exits Quot Sin 7 1);
    [vm_compute; reflexivity|exact Hin].
Defined.

(** C7 on scenario 1: two quiet polls and then an interrupt during the
    sleep, against a run whose child exits on its own. *)
Lemma interrupt_terminates_once_witness :
  let w := World [] [] in
  let r := Symbolic.main 1 EmptyString
             (Environment true
                ([StillRunning; StillRunning]
                   ++ InterruptInSleep :: [Exited 0])) w in
  let q := Symbolic.main 1 EmptyString
             (Environment true [StillRunning; Exited 0]) w in
  r.1 = Completed
  ∧ terminations (trace r.2) = S (terminations (trace w))
  ∧ (∃ tr, trace r.2
           = tr ++ [Terminate; Print (Text "  Program terminated")])
  ∧ terminations (trace q.2) = terminations (trace w).
Proof.
  apply (interrupt_terminates_once Quot Sin 1 EmptyString
           [StillRunning; StillRunning] [Exited 0]
           [StillRunning; Exited 0] InterruptInSleep true (World [] [])).
  - eexists; vm_compute; reflexivity.
  - repeat constructor.
  - reflexivity.
  - repeat constructor.
Defined.

(** * The further properties on concrete inputs *)

(** X1 on three integers. *)
Lemma to_str_app_witness :
  to_str ([1; 2] ++ [3]) = to_str [1; 2] +:+ ", " +:+ to_str [3].
Proof. apply (to_str_app [1; 2] [3]); discriminate. Defined.

(** X5 on a string with blanks at both ends. *)
Lemma strip_ends_witness : isspace (Ascii.ascii_of_nat 45) = false.
Proof.
  apply (strip_ends "  -c red " (Ascii.ascii_of_nat 45)).
  left. vm_compute. reflexivity.
Defined.

(** X6 on the same string. *)
Lemma extra_tokens_ends_witness :
  head (split blank (strip "  -c red ")) ≠ Some EmptyString
  ∧ last (split blank (strip "  -c red ")) ≠ Some EmptyString.
Proof. apply (extra_tokens_ends "  -c red "). vm_compute. discriminate. Defined.

(** X9 on scenario 5. *)
Lemma known_scenario_starts_one_child_witness :
  launched (trace (Symbolic.main 5 "-c red" (Environment true [Exited 0])
                     (World [] [])).2)
  = launched (trace (World [] []))
    ++ ["./main" :: (test5 (split blank (strip "-c red")) (World [] [])).1].
Proof.
  apply (known_scenario_starts_one_child Quot Sin 5 test5);
    [vm_compute; reflexivity|reflexivity].
Defined.

(** X10 on scenario 2. *)
Lemma numeric_scenarios_append_pieces_witness :
  ∃ base, length base = 4%nat ∧
    ∀ (aes : string) (env : environment) (w : world),
      launched (trace (Symbolic.main 2 aes env w).2)
      = launched (trace w)
        ++ [("./main" :: base) ++ split blank (strip aes)].
Proof. apply (numeric_scenarios_append_pieces Quot Sin 2). lia. Defined.

(** X11 on scenario 4. *)
Lemma literal_scenarios_ignore_aes_witness :
  Symbolic.main 4 "-c red" (Environment true [Exited 0]) (World [] [])
  = Symbolic.main 4 EmptyString (Environment true [Exited 0]) (World [] []).
Proof. apply (literal_scenarios_ignore_aes Quot Sin 4). lia. Defined.

(** X12 on scenario 2: two polls find the child running, the third finds
    it gone with return code 3. *)
Lemma child_exit_ends_run_witness :
  Symbolic.main 2 "-c red"
    (Environment true (replicate 2 StillRunning ++ Exited 3 :: [StillRunning]))
    (World [] [])
  = let '(toks, w0) := test2 (split blank (strip "-c red")) (World [] []) in
    (Completed,
     World (trace (launch toks w0) ++ polling 2 ++ [Poll])
           (random_state w0)).
Proof.
  apply (child_exit_ends_run Quot Sin 2 test2). vm_compute. reflexivity.
Defined.

(** X13 on scenario 6 and five polls. *)
Lemma wait_is_unbounded_witness :
  Symbolic.main 6 EmptyString
    (Environment true (replicate 5 StillRunning)) (World [] [])
  = let '(toks, w0) := test6 (split blank (strip EmptyString)) (World [] []) in
    (Waiting,
     World (trace (launch toks w0) ++ polling 5) (random_state w0)).
Proof.
  apply (wait_is_unbounded Quot Sin 6 test6). vm_compute. reflexivity.
Defined.

(** X14 on scenario 4. *)
Lemma launch_failure_is_uncaught_witness :
  Symbolic.main 4 EmptyString (Environment false [StillRunning])
    (World [] [])
  = let '(toks, w0) := test4 (split blank (strip EmptyString)) (World [] []) in
    (Uncaught "OSError", launch toks w0).
Proof.
  apply (launch_failure_is_uncaught Quot Sin 4 test4).
  vm_compute. reflexivity.
Defined.

(** X15 on scenario 2: one quiet poll, then an interrupt inside [poll]. *)
Lemma interrupt_ends_polling_witness :
  Symbolic.main 2 EmptyString
    (Environment true
       (replicate 1 StillRunning ++ InterruptInPoll :: [Exited 0]))
    (World [] [])
  = let '(toks, w0) := test2 (split blank (strip EmptyString)) (World [] []) in
    (Completed,
     World
       (trace (launch toks w0) ++ polling 1
          ++ Poll :: [] ++ [Terminate; Print (Text "  Program terminated")])
       (random_state w0)).
Proof.
  apply (interrupt_ends_polling Quot Sin 2 test2 EmptyString 1
           InterruptInPoll [Exited 0] (World [] []));
    [vm_compute; reflexivity|reflexivity].
Defined.
